(** * Análise de Cobertura de Estoque: the pipeline of [app.py]

    A shallow embedding of the Streamlit script [src/app.py]: column
    validation, row filter, per-branch aggregation, coverage buckets,
    percentages, and the events the script sends to the page.

    Cells.  A cell of the uploaded table is a number, a blank (NaN) or a
    text.  A float64 is a rational or NaN ([float]); arithmetic is exact,
    so the binary rounding of IEEE 754 and overflow to an infinity are
    outside the model.  Decimal rounding ([.round(2)]) is modelled, with
    numpy's round-half-to-even.

    pandas.  Where the script relies on library behaviour (duplicated
    column labels, [groupby] over a categorical, [apply] on an empty
    frame), the definitions follow pandas 1.3 to 2.x and numpy, and say
    so where they do. *)

From Stdlib Require Import String Ascii List ZArith QArith Qround Qabs.
From Stdlib Require Import Bool Sorted Lia Lqa.
Import ListNotations.

Set Implicit Arguments.

(** ** Float cells *)

Module Float.

Local Open Scope Q_scope.

Inductive float := Num (q : Q) | NaN.

Definition add (x y : float) : float :=
  match x, y with Num a, Num b => Num (a + b) | _, _ => NaN end.

Definition mul (x y : float) : float :=
  match x, y with Num a, Num b => Num (a * b) | _, _ => NaN end.

(** [0/0] is NaN; a non-zero numerator over zero would be an infinity,
    which the model does not have.  The script never divides by zero:
    [np.average] refuses weights that sum to zero, a mean is over at least
    one row, and the totals of the percentages are positive. *)
Definition div (x y : float) : float :=
  match x, y with
  | Num a, Num b => if Qeq_bool b 0 then NaN else Num (a / b)
  | _, _ => NaN
  end.

(** [x > 0] and [x == 0]: comparisons with NaN are false. *)
Definition gt0 (x : float) : bool :=
  match x with
  | Num a => match Qcompare 0 a with Lt => true | _ => false end
  | NaN => false
  end.

Definition eq0 (x : float) : bool :=
  match x with Num a => Qeq_bool a 0 | NaN => false end.

(** [np.rint]: nearest integer, ties to the even one. *)
Definition rint (q : Q) : Z :=
  let n := Qfloor q in
  match Qcompare (q - inject_Z n) (1 # 2) with
  | Lt => n
  | Gt => (n + 1)%Z
  | Eq => if Z.even n then n else (n + 1)%Z
  end.

(** [np.round(x, decimals)] is [rint(x * 10**decimals) / 10**decimals]. *)
Definition round (x : float) (decimals : nat) : float :=
  match x with
  | Num q =>
      let s := Z.to_pos (10 ^ Z.of_nat decimals) in
      Num (rint (q * inject_Z (Zpos s)) # s)
  | NaN => NaN
  end.

(** [ndarray.sum]: NaN propagates. *)
Definition sum (l : list float) : float := fold_left add l (Num 0).

(** pandas' [Series.sum] / [DataFrame.sum] ([skipna=True]). *)
Definition notna (x : float) : bool :=
  match x with Num _ => true | NaN => false end.

Definition nansum (l : list float) : float := sum (filter notna l).

(** pandas' [Series.mean] ([skipna=True]); NaN when nothing is left. *)
Definition nanmean (l : list float) : float :=
  let l' := filter notna l in
  match l' with
  | [] => NaN
  | _ => div (sum l') (Num (inject_Z (Z.of_nat (length l'))))
  end.

(** [fillna(0)] on one cell. *)
Definition fillna0 (x : float) : float :=
  match x with Num q => Num q | NaN => Num 0 end.

End Float.

Import Float.

(** ** Spreadsheet cells, exceptions *)

(** A cell as [pd.read_excel] delivers it: a number, a blank (NaN) or a
    text. *)
Inductive value := Flt (x : float) | Str (s : string).

Inductive exn := TypeError | ValueError | ZeroDivisionError.

Inductive result (A : Type) := Ok (a : A) | Raise (e : exn).
Arguments Raise {A} e.

Definition bind {A B} (m : result A) (k : A -> result B) : result B :=
  match m with Ok a => k a | Raise e => Raise e end.

Notation "x <- m ;; k" := (bind m (fun x => k))
  (at level 61, m at next level, right associativity).

Fixpoint mapM {A B} (f : A -> result B) (l : list A) : result (list B) :=
  match l with
  | [] => Ok []
  | a :: l' => b <- f a ;; bs <- mapM f l' ;; Ok (b :: bs)
  end.

(** ** The uploaded table *)

(** [df.columns] and the rows below the header; the cells of a row stand
    under the labels position by position. *)
Record DataFrame := { columns : list string; rows : list (list value) }.

(** The cells of one row under a label: one cell when the label is unique,
    several when it is duplicated (pandas then hands out a frame, not a
    series). *)
Fixpoint loc (cols : list string) (r : list value) (label : string)
  : list value :=
  match cols, r with
  | c :: cols', v :: r' =>
      if String.eqb c label then v :: loc cols' r' label
      else loc cols' r' label
  | _, _ => []
  end.

(** ** Validator (lines 19-31) *)

Definition required_cols : list string :=
  ["Filial"; "Cobertura Atual"; "Vlr Estoque Tmk"; "Mercadoria";
   "Saldo Pedido"]%string.

Definition is_in (col : string) (cols : list string) : bool :=
  existsb (String.eqb col) cols.

Definition missing_cols (df : DataFrame) : list string :=
  filter (fun col => negb (is_in col (columns df))) required_cols.

Definition faltam (missing : list string) : string :=
  ("⚠️ Arquivo inválido! Faltam as colunas: "
     ++ String.concat ", " missing)%string.

Definition rename_label (c : string) : string :=
  if String.eqb c "Vlr Estoque Tmk" then "valor_estoque"
  else if String.eqb c "Cobertura Atual" then "cobertura_dias"
  else if String.eqb c "Filial" then "filial"
  else if String.eqb c "Saldo Pedido" then "saldo_pedido"
  else c.

Definition rename (df : DataFrame) : DataFrame :=
  {| columns := map rename_label (columns df); rows := rows df |}.

(** ** The frame as the script reads it *)

(** After the rename the script reads the frame through four labels only.
    A [Registro] is one row seen through them. *)
Record Registro := {
  filial : list value;
  cobertura_dias : list value;
  valor_estoque : list value;
  saldo_pedido : list value
}.

Definition registro (cols : list string) (r : list value) : Registro :=
  {| filial := loc cols r "filial";
     cobertura_dias := loc cols r "cobertura_dias";
     valor_estoque := loc cols r "valor_estoque";
     saldo_pedido := loc cols r "saldo_pedido" |}.

Definition registros (df : DataFrame) : list Registro :=
  map (registro (columns df)) (rows df).

(** ** Filter (line 34) *)

(** One cell of [df[label] > 0]; Python refuses to order a text and a
    number. *)
Definition gt0 (v : value) : result bool :=
  match v with
  | Flt x => Ok (Float.gt0 x)
  | Str _ => Raise TypeError
  end.

(** [df[label] > 0]: per row, one boolean for a series, several for a
    frame. *)
Definition maior_que_zero (sel : Registro -> list value)
  (df : list Registro) : result (list (list bool)) :=
  mapM (fun r => mapM gt0 (sel r)) df.

(** [A & B], [A] and [B] being series.  When a label is duplicated the
    operand is a frame with duplicated labels, which pandas cannot align
    with the other operand ("cannot reindex on an axis with duplicate
    labels", a ValueError). *)
Definition e_logico (A B : list (list bool)) : result (list bool) :=
  mapM (fun ab : list bool * list bool =>
          match ab with
          | ([a], [b]) => Ok (a && b)
          | _ => Raise ValueError
          end) (combine A B).

(** A row of the filtered frame.  A row passes the mask only with a
    number in both masked columns, so the filtered frame carries these two
    as numbers; the other two columns were not inspected and stay as they
    were read. *)
Record Linha := {
  l_filial : list value;
  l_cobertura_dias : Q;
  l_valor_estoque : list value;
  l_saldo_pedido : Q
}.

Definition linha (r : Registro) : option Linha :=
  match cobertura_dias r, saldo_pedido r with
  | [Flt (Num c)], [Flt (Num s)] =>
      Some {| l_filial := filial r; l_cobertura_dias := c;
              l_valor_estoque := valor_estoque r; l_saldo_pedido := s |}
  | _, _ => None
  end.

(** [df[mask].copy()] *)
Fixpoint seleciona (mask : list bool) (df : list Registro) : list Linha :=
  match mask, df with
  | b :: mask', r :: df' =>
      match (if b then linha r else None) with
      | Some l => l :: seleciona mask' df'
      | None => seleciona mask' df'
      end
  | _, _ => []
  end.

Definition filtrar (df : list Registro) : result (list Linha) :=
  A <- maior_que_zero cobertura_dias df ;;
  B <- maior_que_zero saldo_pedido df ;;
  mask <- e_logico A B ;;
  Ok (seleciona mask df).

(** ** Group keys *)

(** A branch id is a text or a number. *)
Inductive key := KNum (q : Q) | KStr (s : string).

(** The order [groupby(sort=True)] puts the keys in: numbers by value,
    texts by code point (byte order of the UTF-8 text), numbers before
    texts. *)
Definition key_compare (a b : key) : comparison :=
  match a, b with
  | KNum p, KNum q => Qcompare p q
  | KNum _, KStr _ => Lt
  | KStr _, KNum _ => Gt
  | KStr s, KStr t => String.compare s t
  end.

Definition key_eqb (a b : key) : bool :=
  match key_compare a b with Eq => true | _ => false end.

Definition key_lt (a b : key) : Prop := key_compare a b = Lt.

Fixpoint insert_key (k : key) (l : list key) : list key :=
  match l with
  | [] => [k]
  | h :: t =>
      match key_compare k h with
      | Lt => k :: h :: t
      | Eq => h :: t
      | Gt => h :: insert_key k t
      end
  end.

(** The distinct keys, ascending. *)
Definition sorted_unique (l : list key) : list key :=
  fold_right insert_key [] l.

(** The key of a row; a blank is no key ([dropna=True]).  With the label
    duplicated the grouper is two-dimensional: "Grouper for 'filial' not
    1-dimensional", a ValueError. *)
Definition chave (l : Linha) : result (option key) :=
  match l_filial l with
  | [Flt (Num q)] => Ok (Some (KNum q))
  | [Flt NaN] => Ok None
  | [Str s] => Ok (Some (KStr s))
  | _ => Raise ValueError
  end.

Definition tem_chave (k : key) (l : Linha) : bool :=
  match chave l with
  | Ok (Some k') => key_eqb k' k
  | _ => false
  end.

Fixpoint somes {A} (l : list (option A)) : list A :=
  match l with
  | [] => []
  | Some a :: l' => a :: somes l'
  | None :: l' => somes l'
  end.

(** [df.groupby("filial")]: the keys in order, each with its rows. *)
Definition groupby (df : list Linha) : result (list (key * list Linha)) :=
  ks <- mapM chave df ;;
  Ok (map (fun k => (k, filter (tem_chave k) df)) (sorted_unique (somes ks))).

(** ** Aggregator (lines 40-56) *)

(** [np.average(a, weights=w)].  The weights must have the shape of [a]
    (a duplicated label makes them two-dimensional: TypeError), texts do
    not multiply with floats (TypeError), and weights that sum to zero are
    refused (ZeroDivisionError). *)
Definition np_average (a : list float) (weights : list (list value))
  : result float :=
  wgt <- mapM (fun w => match w with
                        | [Flt x] => Ok x
                        | _ => Raise TypeError
                        end) weights ;;
  let scl := Float.sum wgt in
  if Float.eq0 scl then Raise ZeroDivisionError
  else Ok (Float.div
             (Float.sum (map (fun aw => Float.mul (fst aw) (snd aw))
                             (combine a wgt)))
             scl).

Definition col_cobertura_dias (grupo : list Linha) : list float :=
  map (fun l => Num (l_cobertura_dias l)) grupo.

Definition col_saldo_pedido (grupo : list Linha) : list float :=
  map (fun l => Num (l_saldo_pedido l)) grupo.

Definition calcular_media_ponderada (grupo : list Linha) : float :=
  match np_average (col_cobertura_dias grupo) (map l_valor_estoque grupo) with
  | Ok x => x
  | Raise _ => Num 0
  end.

(** A table: per row its key (the index, or the "Filial" column after
    [reset_index]) and the labelled cells. *)
Definition linha_tabela : Type := key * list (string * float).
Definition tabela : Type := list linha_tabela.

Definition celula (r : linha_tabela) (col : string) : option float :=
  match find (fun c => String.eqb (fst c) col) (snd r) with
  | Some c => Some (snd c)
  | None => None
  end.

Definition ponderada : string := "Cobertura Média Ponderada (dias)".
Definition simples : string := "Cobertura Média Simples (dias)".
Definition saldo_total : string := "Saldo Pedido Total".

Definition agregados (grupo : list Linha) : list (string * float) :=
  [(ponderada, calcular_media_ponderada grupo);
   (simples, Float.nanmean (col_cobertura_dias grupo));
   (saldo_total, Float.nansum (col_saldo_pedido grupo))].

Definition round_cells (decimals : nat) (cs : list (string * float))
  : list (string * float) :=
  map (fun c => (fst c, Float.round (snd c) decimals)) cs.

(** [df.groupby("filial").apply(...).round(2).reset_index()].  With no
    group at all, [apply] returns an empty frame that still has the columns
    of [df], "filial" among them, and [reset_index] cannot insert the index
    next to it: a ValueError. *)
Definition cobertura (df : list Linha) : result tabela :=
  grupos <- groupby df ;;
  match grupos with
  | [] => Raise ValueError
  | _ => Ok (map (fun g => (fst g, round_cells 2 (agregados (snd g)))) grupos)
  end.

(** ** Bucketizer (lines 74-85) *)

(** A bin edge: a number or [np.inf]. *)
Inductive edge := Fin (q : Q) | Inf.

Definition edge_le (e : edge) (x : Q) : bool :=
  match e with Fin q => Qle_bool q x | Inf => false end.

Definition lt_edge (x : Q) (e : edge) : bool :=
  match e with Fin q => negb (Qle_bool q x) | Inf => true end.

(** [pd.cut(x, bins, right=False)]: the index of the interval
    [bins[i] <= x < bins[i+1]], none for a value outside every interval
    or a NaN. *)
Fixpoint cut_from (lo : edge) (bins : list edge) (i : nat) (x : Q)
  : option nat :=
  match bins with
  | [] => None
  | hi :: bins' =>
      if edge_le lo x && lt_edge x hi then Some i
      else cut_from hi bins' (S i) x
  end.

Definition cut (x : float) (bins : list edge) : option nat :=
  match x, bins with
  | Num q, lo :: bins' => cut_from lo bins' 0 q
  | _, _ => None
  end.

Definition bins : list edge :=
  [Fin 0; Fin 15; Fin 30; Fin 45; Fin 60; Inf].

Definition labels : list string :=
  ["0-15 dias"; "16-30 dias"; "31-45 dias"; "46-60 dias";
   "Mais de 60 dias"]%string.

(** [df['faixa']]: the category of a row, as its position in [labels]. *)
Definition faixa (l : Linha) : option nat :=
  cut (Num (l_cobertura_dias l)) bins.

Definition na_faixa (i : nat) (l : Linha) : bool :=
  match faixa l with Some j => Nat.eqb i j | None => false end.

(** The keys of [df.groupby(['filial', ...])]. *)
Definition chaves (df : list Linha) : result (list key) :=
  ks <- mapM chave df ;; Ok (sorted_unique (somes ks)).

(** One entry of [df.groupby(['filial','faixa'])['saldo_pedido'].sum()]. *)
Definition soma_saldo (k : key) (i : nat) (df : list Linha) : float :=
  Float.nansum
    (col_saldo_pedido (filter (fun l => tem_chave k l && na_faixa i l) df)).

(** Line 82.  'faixa' is categorical and [groupby] keeps every category
    ([observed=False], the default up to pandas 2): the sum runs over the
    product of the keys and the five categories, an empty combination
    sums to 0; [unstack] lays the categories out as columns and
    [fillna(0)] fills what would be left blank. *)
Definition faixas_da_filial (k : key) (df : list Linha)
  : list (string * float) :=
  map (fun il => (snd il, Float.fillna0 (soma_saldo k (fst il) df)))
      (combine (seq 0 (length labels)) labels).

Definition soma_por_faixa (df : list Linha) : result tabela :=
  ks <- chaves df ;; Ok (map (fun k => (k, faixas_da_filial k df)) ks).

(** Line 85: [resumo_valores['TOTAL'] = resumo_valores.sum(axis=1)]. *)
Definition total_da_linha (r : linha_tabela) : linha_tabela :=
  (fst r, snd r ++ [("TOTAL"%string, Float.nansum (map snd (snd r)))]).

Definition com_total (t : tabela) : tabela := map total_da_linha t.

Definition resumo_valores (df : list Linha) : result tabela :=
  t <- soma_por_faixa df ;; Ok (com_total t).

(** ** Normalizer (lines 100-106) *)

Definition colunas (t : tabela) : list string :=
  match t with
  | r :: _ => map fst (snd r)
  | [] => []
  end.

(** [t[col] = f(row)], for every row. *)
Definition set_cell (col : string) (f : linha_tabela -> float)
  (r : linha_tabela) : linha_tabela :=
  (fst r,
   map (fun c => if String.eqb (fst c) col then (col, f r) else c) (snd r)).

Definition set_col (col : string) (f : linha_tabela -> float) (t : tabela)
  : tabela :=
  map (set_cell col f) t.

(** [t.drop(columns=[col])] *)
Definition drop_cell (col : string) (r : linha_tabela) : linha_tabela :=
  (fst r, filter (fun c => negb (String.eqb (fst c) col)) (snd r)).

Definition drop (col : string) (t : tabela) : tabela :=
  map (drop_cell col) t.

(** [(row[col] / row['TOTAL'] * 100).round(2)] *)
Definition percentual (col : string) (r : linha_tabela) : float :=
  match celula r col, celula r "TOTAL" with
  | Some x, Some t => Float.round (Float.mul (Float.div x t) (Num 100)) 2
  | _, _ => NaN
  end.

Definition resumo_percentuais (resumo_valores : tabela) : tabela :=
  let t :=
    fold_left
      (fun t col =>
         if negb (String.eqb col "TOTAL") then set_col col (percentual col) t
         else t)
      (colunas resumo_valores) resumo_valores in
  drop "TOTAL" t.

(** ** The script *)

Inductive event :=
| st_title (s : string)
| st_warning (s : string)
| st_error (msg : string)
| st_error_ocorreu (e : exn)
    (** line 131: "Ocorreu um erro ao processar o arquivo: " and [str(e)] *)
| st_subheader (s : string)
| st_markdown (s : string)
| st_dataframe (t : tabela)
| st_download_button (workbook : list (string * tabela)).

Definition workbook (c v p : tabela) : list (string * tabela) :=
  [("Cobertura Média"%string, c); ("Valores Absolutos"%string, v);
   ("Percentuais"%string, p)].

(** What a run that reaches the end shows, given its three tables. *)
Definition relatorio (c v p : tabela) : list event :=
  [st_subheader "📌 Cobertura Média por Filial";
   st_dataframe c;
   st_subheader "📊 Distribuição por Faixa de Cobertura (Saldo de Pedido)";
   st_markdown "**Valores Absolutos (R$)**";
   st_dataframe v;
   st_markdown "**Percentuais por Faixa (%)**";
   st_dataframe p;
   st_download_button (workbook c v p)].

(** Lines 14-132: the body of [try], with [st.stop()] (which
    [except Exception] does not catch) and the handler. *)
Definition processar (df : DataFrame) : list event :=
  if negb (forallb (fun col => is_in col (columns df)) required_cols) then
    [st_error (faltam (missing_cols df))]
  else
    let df := rename df in
    match filtrar (registros df) with
    | Raise e => [st_error_ocorreu e]
    | Ok df =>
        match cobertura df with
        | Raise e =>
            [st_subheader "📌 Cobertura Média por Filial";
             st_error_ocorreu e]
        | Ok c =>
            match resumo_valores df with
            | Raise e =>
                [st_subheader "📌 Cobertura Média por Filial";
                 st_dataframe c;
                 st_subheader
                   "📊 Distribuição por Faixa de Cobertura (Saldo de Pedido)";
                 st_error_ocorreu e]
            | Ok v => relatorio c v (resumo_percentuais v)
            end
        end
    end.


(** The example of the specification: two rows of branch "A". *)
Definition exemplo : DataFrame :=
  {| columns := required_cols;
     rows := [[Str "A"; Flt (Num 10); Flt (Num 100); Str "m1"; Flt (Num 50)];
              [Str "A"; Flt (Num 20); Flt (Num 300); Str "m2"; Flt (Num 150)]]
  |}.


(** ** Vocabulary of the specification *)

(** Σ over a list of numbers. *)
Definition Qsum (l : list Q) : Q := fold_right Qplus 0%Q l.

(** The half-open coverage ranges of the specification, by position:
    [0,15), [15,30), [30,45), [45,60), [60,∞). *)
Definition no_intervalo (i : nat) (q : Q) : bool :=
  match i with
  | 0%nat => Qle_bool 0 q && negb (Qle_bool 15 q)
  | 1%nat => Qle_bool 15 q && negb (Qle_bool 30 q)
  | 2%nat => Qle_bool 30 q && negb (Qle_bool 45 q)
  | 3%nat => Qle_bool 45 q && negb (Qle_bool 60 q)
  | 4%nat => Qle_bool 60 q
  | _ => false
  end.


(** The rows of a group, and the columns of the group as numbers. *)
Definition grupo_de (k : key) (df : list Linha) : list Linha :=
  filter (tem_chave k) df.






(** The Filter, row by row: a text in a masked column, a masked column
    that is not one-dimensional, and the row the mask keeps. *)
Definition is_str (v : value) : bool :=
  match v with Str _ => true | Flt _ => false end.

Definition positivo (v : value) : bool :=
  match v with Flt x => Float.gt0 x | Str _ => false end.

Definition tem_texto (sel : Registro -> list value) (r : Registro) : bool :=
  existsb is_str (sel r).

Definition unitario (r : Registro) : bool :=
  match cobertura_dias r, saldo_pedido r with
  | [_], [_] => true
  | _, _ => false
  end.

Definition mask_bit (r : Registro) : bool :=
  match map positivo (cobertura_dias r), map positivo (saldo_pedido r) with
  | [a], [b] => a && b
  | _, _ => false
  end.

Definition manter (r : Registro) : option Linha :=
  if mask_bit r then linha r else None.

Definition positiva (l : Linha) : Prop :=
  (0 < l_cobertura_dias l /\ 0 < l_saldo_pedido l)%Q.

(** The cells of a row of [df] under a label, after the rename. *)
Definition celulas (cols : list string) (label : string) (row : list value)
  : list value :=
  loc (map rename_label cols) row label.

(** A float that is a number and not above zero. *)
Definition nao_positivo (x : float) : Prop :=
  match x with Num q => (q <= 0)%Q | NaN => False end.

(** The filtered frame and the first table of the example. *)
Definition exemplo_filtrado : list Linha :=
  [{| l_filial := [Str "A"]; l_cobertura_dias := 10;
      l_valor_estoque := [Flt (Num 100)]; l_saldo_pedido := 50 |};
   {| l_filial := [Str "A"]; l_cobertura_dias := 20;
      l_valor_estoque := [Flt (Num 300)]; l_saldo_pedido := 150 |}].

Definition exemplo_cobertura : tabela :=
  [(KStr "A", [(ponderada, Num (1750 # 100)); (simples, Num (1500 # 100));
               (saldo_total, Num (20000 # 100))])].

Definition exemplo_valores : tabela :=
  [(KStr "A", [("0-15 dias"%string, Num 50); ("16-30 dias"%string, Num 150);
               ("31-45 dias"%string, Num 0); ("46-60 dias"%string, Num 0);
               ("Mais de 60 dias"%string, Num 0); ("TOTAL"%string, Num 200)])].

Definition exemplo_percentuais : tabela :=
  [(KStr "A", [("0-15 dias"%string, Num (2500 # 100));
               ("16-30 dias"%string, Num (7500 # 100));
               ("31-45 dias"%string, Num (0 # 100));
               ("46-60 dias"%string, Num (0 # 100));
               ("Mais de 60 dias"%string, Num (0 # 100))])].




(** One turn of the loop of lines 101-103, on one row. *)
Definition passo (r : linha_tabela) (col : string) : linha_tabela :=
  if negb (String.eqb col "TOTAL") then set_cell col (percentual col) r
  else r.



(** [df[col]], row by row. *)
Definition coluna (df : DataFrame) (col : string) : list (list value) :=
  map (fun row => loc (columns df) row col) (rows df).

(** The labels the rename introduces. *)
Definition nomes_internos : list string :=
  ["valor_estoque"; "cobertura_dias"; "filial"; "saldo_pedido"]%string.




(** The example with one more column, labelled "filial". *)
Definition exemplo_com_filial : DataFrame :=
  {| columns := required_cols ++ ["filial"%string];
     rows := [[Str "A"; Flt (Num 10); Flt (Num 100); Str "m1"; Flt (Num 50);
               Str "norte"];
              [Str "A"; Flt (Num 20); Flt (Num 300); Str "m2"; Flt (Num 150);
               Str "sul"]]
  |}.

(** The example with one more column, labelled "valor_estoque". *)
Definition exemplo_com_valor : DataFrame :=
  {| columns := required_cols ++ ["valor_estoque"%string];
     rows := [[Str "A"; Flt (Num 10); Flt (Num 100); Str "m1"; Flt (Num 50);
               Flt (Num 1)];
              [Str "A"; Flt (Num 20); Flt (Num 300); Str "m2"; Flt (Num 150);
               Flt (Num 1)]]
  |}.

(** The example with one more column, labelled "Observação". *)
Definition exemplo_com_observacao : DataFrame :=
  {| columns := required_cols ++ ["Observação"%string];
     rows := [[Str "A"; Flt (Num 10); Flt (Num 100); Str "m1"; Flt (Num 50);
               Str "ok"];
              [Str "A"; Flt (Num 20); Flt (Num 300); Str "m2"; Flt (Num 150);
               Flt NaN]]
  |}.

(** A table without the column "Saldo Pedido". *)
Definition exemplo_sem_saldo : DataFrame :=
  {| columns := ["Filial"; "Cobertura Atual"; "Vlr Estoque Tmk";
                 "Mercadoria"]%string;
     rows := [[Str "A"; Flt (Num 10); Flt (Num 100); Str "m1"]] |}.




(** Rows the Filter drops: no coverage, and a blank pending balance. *)
Definition linha_sem_cobertura : list value :=
  [Str "A"; Flt (Num 0); Flt (Num 100); Str "m3"; Flt (Num 70)].


(** ** Further vocabulary *)


(** The row [r] with the cells under "Mercadoria" taken from [r']. *)
Fixpoint troca_mercadoria (cols : list string) (r r' : list value)
  : list value :=
  match cols, r, r' with
  | c :: cols', v :: r1, v' :: r1' =>
      (if String.eqb c "Mercadoria" then v' else v)
        :: troca_mercadoria cols' r1 r1'
  | _, _, _ => r
  end.

(** The example with a text where a pending balance should be. *)
Definition exemplo_com_texto : DataFrame :=
  {| columns := required_cols;
     rows := [[Str "A"; Flt (Num 10); Flt (Num 100); Str "m1"; Flt (Num 50)];
              [Str "A"; Flt (Num 20); Flt (Num 300); Str "m2"; Str "n/d"]]
  |}.

(** A row that passes the Filter and has no branch id. *)
Definition linha_sem_filial : list value :=
  [Flt NaN; Flt (Num 40); Flt (Num 10); Str "m5"; Flt (Num 99)].

(** Rows of one branch with a blank and with a text as stock value. *)
Definition linha_peso_em_branco : Linha :=
  {| l_filial := [Str "A"]; l_cobertura_dias := 5;
     l_valor_estoque := [Flt NaN]; l_saldo_pedido := 1 |}.

Definition linha_peso_texto : Linha :=
  {| l_filial := [Str "A"]; l_cobertura_dias := 5;
     l_valor_estoque := [Str "n/d"]; l_saldo_pedido := 1 |}.

(** The filtered row [l] with other cells as stock value. *)
Definition com_peso (g : Linha -> list value) (l : Linha) : Linha :=
  {| l_filial := l_filial l; l_cobertura_dias := l_cobertura_dias l;
     l_valor_estoque := g l; l_saldo_pedido := l_saldo_pedido l |}.
(** * Properties *)

(** ** Rounding and sums *)

Section Rounding.

Local Open Scope Q_scope.








End Rounding.

Section Sums.

Local Open Scope Q_scope.






Lemma Qsum_app (l1 l2 : list Q) : Qsum (l1 ++ l2) == Qsum l1 + Qsum l2.
Proof. induction l1; simpl; lra. Qed.



End Sums.

(** ** The error monad *)

Lemma mapM_app {A B} (f : A -> result B) (l1 l2 : list A) :
  mapM f (l1 ++ l2)
  = x1 <- mapM f l1 ;; x2 <- mapM f l2 ;; Ok (x1 ++ x2).
Proof.
  induction l1 as [| a l1 IH]; simpl.
  - destruct (mapM f l2); reflexivity.
  - destruct (f a); simpl; [| reflexivity].
    rewrite IH. destruct (mapM f l1); simpl; [| reflexivity].
    destruct (mapM f l2); reflexivity.
Qed.

Lemma mapM_length {A B} (f : A -> result B) (l : list A) (bs : list B) :
  mapM f l = Ok bs -> length bs = length l.
Proof.
  revert bs. induction l as [| a l IH]; simpl; intros bs H.
  - injection H as <-. reflexivity.
  - destruct (f a); simpl in H; [| discriminate].
    destruct (mapM f l); simpl in H; [| discriminate].
    injection H as <-. simpl. f_equal. apply IH. reflexivity.
Qed.


(** ** Filter *)

Lemma mapM_guard {A B} (f : A -> result B) (bad : A -> bool) (g : A -> B)
  (e : exn) :
  (forall a, f a = if bad a then Raise e else Ok (g a)) ->
  forall l, mapM f l = if existsb bad l then Raise e else Ok (map g l).
Proof.
  intros Hf l. induction l as [| a l IH]; simpl; [reflexivity |].
  rewrite Hf. destruct (bad a); simpl; [reflexivity |].
  rewrite IH. destruct (existsb bad l); reflexivity.
Qed.

Lemma mapM_map {A B C} (f : B -> result C) (g : A -> B) (l : list A) :
  mapM f (map g l) = mapM (fun a => f (g a)) l.
Proof.
  induction l as [| a l IH]; simpl; [reflexivity |]. rewrite IH. reflexivity.
Qed.

Lemma combine_map_map {A B C} (f : A -> B) (g : A -> C) (l : list A) :
  combine (map f l) (map g l) = map (fun a => (f a, g a)) l.
Proof. induction l; simpl; congruence. Qed.

Lemma gt0_cells (l : list value) :
  mapM gt0 l = if existsb is_str l then Raise TypeError
               else Ok (map positivo l).
Proof. apply mapM_guard. intros [x | s]; reflexivity. Qed.

Lemma maior_que_zero_eq (sel : Registro -> list value) (df : list Registro) :
  maior_que_zero sel df
  = if existsb (tem_texto sel) df then Raise TypeError
    else Ok (map (fun r => map positivo (sel r)) df).
Proof.
  unfold maior_que_zero. apply mapM_guard.
  intros r. rewrite gt0_cells. reflexivity.
Qed.

Lemma seleciona_eq (df : list Registro) :
  seleciona (map mask_bit df) df = somes (map manter df).
Proof.
  induction df as [| r df IH]; simpl; [reflexivity |].
  unfold manter at 1. destruct (if mask_bit r then linha r else None);
    rewrite IH; reflexivity.
Qed.

Lemma length1_map {A B} (f : A -> B) (l : list A) :
  (exists b, map f l = [b]) <-> (exists a, l = [a]).
Proof.
  split.
  - intros [b H]. destruct l as [| a [| a' l]]; try discriminate. eauto.
  - intros [a ->]. simpl. eauto.
Qed.

(** The Filter in one pass: a text in a masked column stops it with a
    TypeError, a masked column that is not one-dimensional with a
    ValueError; otherwise it keeps the rows the mask keeps. *)
Lemma filtrar_eq (df : list Registro) :
  filtrar df
  = if existsb (tem_texto cobertura_dias) df then Raise TypeError
    else if existsb (tem_texto saldo_pedido) df then Raise TypeError
    else if existsb (fun r => negb (unitario r)) df then Raise ValueError
    else Ok (somes (map manter df)).
Proof.
  unfold filtrar. rewrite !maior_que_zero_eq.
  destruct (existsb (tem_texto cobertura_dias) df); [reflexivity |].
  destruct (existsb (tem_texto saldo_pedido) df); [reflexivity |].
  cbn [bind]. unfold e_logico. rewrite combine_map_map, mapM_map.
  rewrite (mapM_guard _ (fun r => negb (unitario r)) mask_bit ValueError).
  - destruct (existsb (fun r => negb (unitario r)) df); [reflexivity |].
    cbn [bind]. rewrite seleciona_eq. reflexivity.
  - intros r. unfold unitario, mask_bit.
    destruct (cobertura_dias r) as [| a [| a' la]];
      destruct (saldo_pedido r) as [| b [| b' lb]]; reflexivity.
Qed.

Lemma manter_positiva (r : Registro) (l : Linha) :
  manter r = Some l -> positiva l.
Proof.
  unfold manter, mask_bit, linha, positiva.
  destruct (cobertura_dias r) as [| [[c |] | s] [| a' la]]; try discriminate;
    destruct (saldo_pedido r) as [| [[d |] | t] [| b' lb]];
    simpl; try discriminate;
    try (destruct (Qcompare 0 c); discriminate).
  destruct (Qcompare 0 c) eqn:Ec; try discriminate.
  destruct (Qcompare 0 d) eqn:Ed; try discriminate.
  intros H. injection H as <-. simpl.
  split; apply Qlt_alt; assumption.
Qed.

Lemma filtrar_positiva (df : list Registro) (ls : list Linha) :
  filtrar df = Ok ls -> Forall positiva ls.
Proof.
  rewrite filtrar_eq.
  destruct (existsb (tem_texto cobertura_dias) df); [discriminate |].
  destruct (existsb (tem_texto saldo_pedido) df); [discriminate |].
  destruct (existsb (fun r => negb (unitario r)) df); [discriminate |].
  intros H. injection H as <-.
  induction df as [| r df IH]; simpl; [constructor |].
  destruct (manter r) eqn:E; [constructor |]; auto.
  eapply manter_positiva; eassumption.
Qed.

(** A row whose two masked cells are floats that fail the mask leaves no
    trace in the Filter's result, errors included. *)
Lemma filtrar_descarta (before after : list Registro) (r : Registro)
  (x y : float) :
  cobertura_dias r = [Flt x] -> saldo_pedido r = [Flt y] ->
  Float.gt0 x && Float.gt0 y = false ->
  filtrar (before ++ r :: after) = filtrar (before ++ after).
Proof.
  intros Hx Hy Hm. rewrite !filtrar_eq.
  rewrite !existsb_app, !map_app. simpl.
  unfold tem_texto at 2 5. unfold unitario at 2. unfold manter at 2.
  unfold mask_bit. rewrite Hx, Hy. simpl. rewrite Hm.
  assert (E : forall l1 l2 : list (option Linha),
             somes (l1 ++ None :: l2) = somes (l1 ++ l2)).
  { induction l1 as [| [a |] l1 IH]; simpl; intros; congruence. }
  rewrite E. reflexivity.
Qed.

(** ** The order of the keys *)

Section KeyOrder.

Lemma ascii_compare_refl (a : ascii) : Ascii.compare a a = Eq.
Proof. unfold Ascii.compare. apply N.compare_refl. Qed.

Lemma ascii_compare_trans (a b c : ascii) :
  Ascii.compare a b = Lt -> Ascii.compare b c = Lt -> Ascii.compare a c = Lt.
Proof.
  unfold Ascii.compare. rewrite !N.compare_lt_iff. apply N.lt_trans.
Qed.


Lemma string_compare_trans (s t u : string) :
  String.compare s t = Lt -> String.compare t u = Lt ->
  String.compare s u = Lt.
Proof.
  revert t u. induction s as [| a s IH]; intros [| b t] [| c u]; simpl;
    try discriminate; try reflexivity.
  destruct (Ascii.compare a b) eqn:Eab; try discriminate;
    destruct (Ascii.compare b c) eqn:Ebc; try discriminate; intros H1 H2.
  - apply Ascii.compare_eq_iff in Eab, Ebc. subst.
    rewrite ascii_compare_refl. eapply IH; eassumption.
  - apply Ascii.compare_eq_iff in Eab. subst. rewrite Ebc. reflexivity.
  - apply Ascii.compare_eq_iff in Ebc. subst. rewrite Eab. reflexivity.
  - rewrite (ascii_compare_trans _ _ _ Eab Ebc). reflexivity.
Qed.


Lemma key_compare_antisym (a b : key) :
  key_compare a b = CompOpp (key_compare b a).
Proof.
  destruct a as [p | s], b as [q | t]; simpl; try reflexivity.
  - symmetry. apply Qcompare_antisym.
  - apply String.compare_antisym.
Qed.

Lemma key_lt_trans (a b c : key) : key_lt a b -> key_lt b c -> key_lt a c.
Proof.
  unfold key_lt.
  destruct a as [p | s], b as [q | t], c as [r | u]; simpl;
    try discriminate; try reflexivity.
  - intros H1 H2. apply Qlt_alt in H1, H2. apply -> Qlt_alt.
    eapply Qlt_trans; eassumption.
  - apply string_compare_trans.
Qed.


Lemma In_insert_key (k x : key) (l : list key) :
  In x (insert_key k l) -> x = k \/ In x l.
Proof.
  induction l as [| h t IH]; simpl.
  - intuition.
  - destruct (key_compare k h); simpl; intuition.
Qed.




Lemma insert_key_sorted (k : key) (l : list key) :
  StronglySorted key_lt l -> StronglySorted key_lt (insert_key k l).
Proof.
  induction 1 as [| h t Hs IH Hall]; simpl.
  - repeat constructor.
  - destruct (key_compare k h) eqn:E.
    + constructor; assumption.
    + constructor; [constructor; assumption |].
      constructor; [exact E |].
      eapply Forall_impl; [| exact Hall].
      intros x Hx. eapply key_lt_trans; eassumption.
    + constructor; [exact IH |].
      apply Forall_forall. intros x Hx.
      apply In_insert_key in Hx. destruct Hx as [-> | Hx].
      * unfold key_lt. rewrite key_compare_antisym, E. reflexivity.
      * rewrite Forall_forall in Hall. auto.
Qed.

Lemma sorted_unique_sorted (l : list key) :
  StronglySorted key_lt (sorted_unique l).
Proof.
  induction l as [| k l IH]; simpl; [constructor |].
  apply insert_key_sorted, IH.
Qed.

End KeyOrder.

(** ** Groups *)




Lemma chaves_sorted (df : list Linha) (ks : list key) :
  chaves df = Ok ks -> StronglySorted key_lt ks.
Proof.
  unfold chaves. destruct (mapM chave df); simpl; [| discriminate].
  intros H. injection H as <-. apply sorted_unique_sorted.
Qed.



Lemma groupby_chaves (df : list Linha) :
  groupby df = ks <- chaves df ;; Ok (map (fun k => (k, grupo_de k df)) ks).
Proof.
  unfold groupby, chaves. destruct (mapM chave df); reflexivity.
Qed.

Lemma cobertura_inv (df : list Linha) (c : tabela) :
  cobertura df = Ok c ->
  exists ks, chaves df = Ok ks /\ ks <> [] /\
    c = map (fun k => (k, round_cells 2 (agregados (grupo_de k df)))) ks.
Proof.
  unfold cobertura. rewrite groupby_chaves.
  destruct (chaves df) as [ks |]; simpl; [| discriminate].
  destruct ks as [| k ks]; simpl; [discriminate |].
  intros H. injection H as <-. exists (k :: ks).
  split; [reflexivity |]. split; [discriminate |].
  simpl. f_equal. rewrite map_map. reflexivity.
Qed.

(** ** Weighted mean *)

Section WeightedMean.

Local Open Scope Q_scope.








End WeightedMean.

(** ** The script, stage by stage *)

Lemma is_in_In (col : string) (cols : list string) :
  is_in col cols = true <-> In col cols.
Proof.
  unfold is_in. rewrite existsb_exists. split.
  - intros [x [Hx E]]. apply String.eqb_eq in E. subst. exact Hx.
  - intros H. exists col. split; [exact H | apply String.eqb_refl].
Qed.

Lemma filter_negb_nil {A} (f : A -> bool) (l : list A) :
  filter (fun x => negb (f x)) l = [] <-> forallb f l = true.
Proof.
  induction l as [| a l IH]; simpl; [tauto |].
  destruct (f a); simpl; [exact IH |]. split; discriminate.
Qed.

Lemma exemplo_ok :
  filtrar (registros (rename exemplo)) = Ok exemplo_filtrado
  /\ processar exemplo
     = relatorio exemplo_cobertura exemplo_valores exemplo_percentuais.
Proof. split; reflexivity. Qed.

(** A run that reaches the end went through every stage. *)
Lemma processar_relatorio (df : DataFrame) (c v p : tabela) :
  processar df = relatorio c v p ->
  missing_cols df = []
  /\ exists ls, filtrar (registros (rename df)) = Ok ls
                /\ cobertura ls = Ok c
                /\ resumo_valores ls = Ok v
                /\ p = resumo_percentuais v.
Proof.
  unfold processar, relatorio.
  destruct (forallb (fun col => is_in col (columns df)) required_cols) eqn:Ef;
    simpl; [| discriminate].
  destruct (filtrar (registros (rename df))) as [ls |] eqn:E1;
    [| discriminate].
  destruct (cobertura ls) as [c' |] eqn:E2; [| discriminate].
  destruct (resumo_valores ls) as [v' |] eqn:E3; [| discriminate].
  intros H. injection H as Hc Hv Hp _. subst c' v' p.
  split.
  - apply filter_negb_nil. exact Ef.
  - exists ls. auto.
Qed.

Lemma processar_descarta (cols : list string) (before after : list (list value))
  (row : list value) (x y : float) :
  celulas cols "cobertura_dias" row = [Flt x] ->
  celulas cols "saldo_pedido" row = [Flt y] ->
  Float.gt0 x && Float.gt0 y = false ->
  processar {| columns := cols; rows := before ++ row :: after |}
  = processar {| columns := cols; rows := before ++ after |}.
Proof.
  intros Hx Hy Hm. unfold processar, registros, rename. cbn [columns rows].
  rewrite !map_app. cbn [map].
  rewrite (filtrar_descarta _ _ (registro (map rename_label cols) row)
             Hx Hy Hm).
  reflexivity.
Qed.

(** A run reaches the end as soon as the required columns are there, the
    Filter does not raise and the filtered frame has a branch. *)
Lemma relatorio_existe (df : DataFrame) (ls : list Linha) (ks : list key) :
  missing_cols df = [] ->
  filtrar (registros (rename df)) = Ok ls ->
  chaves ls = Ok ks -> ks <> [] ->
  exists c v, processar df = relatorio c v (resumo_percentuais v).
Proof.
  intros Hm Hf Hks Hne. unfold processar.
  apply filter_negb_nil in Hm. rewrite Hm, Hf. cbn [negb].
  unfold cobertura, resumo_valores, soma_por_faixa.
  rewrite groupby_chaves, Hks. cbn [bind].
  destruct ks as [| k ks]; [congruence |]. cbn [map].
  eexists. eexists. reflexivity.
Qed.

(** ** Coverage ranges *)

Section Buckets.

Local Open Scope Q_scope.

Lemma Qle_bool_false (x y : Q) : Qle_bool x y = false -> y < x.
Proof.
  intros H. apply Qnot_le_lt. intros Hle.
  apply Qle_bool_iff in Hle. congruence.
Qed.

Ltac qle_cases q :=
  destruct (Qle_bool 0 q) eqn:E0; destruct (Qle_bool 15 q) eqn:E15;
  destruct (Qle_bool 30 q) eqn:E30; destruct (Qle_bool 45 q) eqn:E45;
  destruct (Qle_bool 60 q) eqn:E60;
  repeat match goal with
         | H : Qle_bool _ _ = true |- _ => apply Qle_bool_iff in H
         | H : Qle_bool _ _ = false |- _ => apply Qle_bool_false in H
         end.

(** [pd.cut] with the bins of the script puts a number in the range of
    the specification with the same position. *)
Lemma cut_intervalo (q : Q) (i : nat) :
  cut (Num q) bins = Some i <-> no_intervalo i q = true.
Proof.
  unfold cut, bins, cut_from, edge_le, lt_edge.
  destruct i as [| [| [| [| [| i]]]]]; unfold no_intervalo;
    qle_cases q; simpl; split; intros H;
    solve [ reflexivity | discriminate H | exfalso; lra ].
Qed.



End Buckets.

(** ** The table of sums per range *)

Section BucketTable.

Local Open Scope Q_scope.




Lemma resumo_valores_inv (df : list Linha) (v : tabela) :
  resumo_valores df = Ok v ->
  exists ks, chaves df = Ok ks
             /\ v = map (fun k => total_da_linha (k, faixas_da_filial k df)) ks.
Proof.
  unfold resumo_valores, soma_por_faixa.
  destruct (chaves df) as [ks |]; simpl; [| discriminate].
  intros H. injection H as <-. exists ks. split; [reflexivity |].
  unfold com_total. rewrite map_map. reflexivity.
Qed.


End BucketTable.

(** ** Percentages *)

Section Percent.

Local Open Scope Q_scope.

Lemma fold_set_col (cols : list string) (t : tabela) :
  fold_left
    (fun t col =>
       if negb (String.eqb col "TOTAL") then set_col col (percentual col) t
       else t) cols t
  = map (fun r => fold_left passo cols r) t.
Proof.
  revert t. induction cols as [| c cols IH]; intros t; cbn [fold_left].
  - symmetry. apply map_id.
  - rewrite IH. destruct (negb (String.eqb c "TOTAL")) eqn:E.
    + unfold set_col. rewrite map_map. apply map_ext. intros r.
      f_equal. unfold passo. rewrite E. reflexivity.
    + apply map_ext. intros r. f_equal. unfold passo. rewrite E.
      reflexivity.
Qed.

Lemma resumo_percentuais_map (t : tabela) :
  resumo_percentuais t
  = map (fun r => drop_cell "TOTAL" (fold_left passo (colunas t) r)) t.
Proof.
  unfold resumo_percentuais, drop. rewrite fold_set_col, map_map.
  reflexivity.
Qed.



End Percent.

(** ** The three tables of a run *)

Section Report.

Local Open Scope Q_scope.



Lemma Forall2_map_same {A B C} (R : B -> C -> Prop) (f : A -> B) (g : A -> C)
  (l : list A) :
  (forall a, In a l -> R (f a) (g a)) -> Forall2 R (map f l) (map g l).
Proof.
  induction l as [| a l IH]; simpl; intros H; constructor; auto.
Qed.


End Report.

(** ** Aggregator: the table of means *)

Section Aggregator.

Local Open Scope Q_scope.



End Aggregator.

(** ** Validator and Filter *)

(** C4.  When a required column is absent, the only thing the run shows is
    the error message; the message lists the required columns that are
    absent, and only those, in the order of [required_cols]; the rows are
    not looked at, and no table and no workbook comes out. *)
Theorem C4_missing_columns (df : DataFrame) :
  (exists col, In col required_cols /\ ~ In col (columns df)) ->
  processar df = [st_error (faltam (missing_cols df))]
  /\ faltam (missing_cols df)
     = ("⚠️ Arquivo inválido! Faltam as colunas: "
          ++ String.concat ", " (missing_cols df))%string
  /\ (forall col, In col (missing_cols df)
                  <-> In col required_cols /\ ~ In col (columns df))
  /\ (forall rows' : list (list value),
        processar {| columns := columns df; rows := rows' |} = processar df).
Proof.
  intros [col [Hreq Habs]].
  assert (Ef : forallb (fun col => is_in col (columns df)) required_cols
               = false).
  { destruct (forallb _ required_cols) eqn:E; [| reflexivity].
    rewrite forallb_forall in E. apply E in Hreq.
    apply is_in_In in Hreq. contradiction. }
  split; [| split; [reflexivity | split]].
  - unfold processar. rewrite Ef. reflexivity.
  - intros c. unfold missing_cols. rewrite filter_In.
    rewrite negb_true_iff, <- not_true_iff_false, is_in_In. tauto.
  - intros rows'. unfold processar. cbn [columns]. rewrite Ef. reflexivity.
Qed.

Lemma C4_missing_columns_witness :
  (exists col, In col required_cols /\ ~ In col (columns exemplo_sem_saldo))
  /\ processar exemplo_sem_saldo
     = [st_error "⚠️ Arquivo inválido! Faltam as colunas: Saldo Pedido"].
Proof.
  assert (H : exists col,
             In col required_cols /\ ~ In col (columns exemplo_sem_saldo)).
  { exists "Saldo Pedido"%string. split.
    - simpl. tauto.
    - simpl. intros [E | [E | [E | [E | []]]]]; discriminate E. }
  split; [exact H |].
  exact (proj1 (C4_missing_columns exemplo_sem_saldo H)).
Defined.

(** C2.  A row whose coverage days or pending balance is a number not
    above zero (the other one being a number or a blank) changes nothing:
    the run shows the same messages and the same three tables with the row
    as without it, and every row the Filter lets through has both values
    above zero. *)
Theorem C2_filter_excludes (cols : list string)
  (before after : list (list value)) (row : list value) (x y : float) :
  celulas cols "cobertura_dias" row = [Flt x] ->
  celulas cols "saldo_pedido" row = [Flt y] ->
  nao_positivo x \/ nao_positivo y ->
  processar {| columns := cols; rows := before ++ row :: after |}
  = processar {| columns := cols; rows := before ++ after |}
  /\ forall ls,
       filtrar (registros (rename {| columns := cols;
                                     rows := before ++ row :: after |}))
       = Ok ls -> Forall positiva ls.
Proof.
  intros Hx Hy Hle. split; [| intros ls; apply filtrar_positiva].
  apply (processar_descarta _ _ _ _ Hx Hy).
  apply andb_false_iff.
  destruct Hle as [H | H]; [left | right].
  - destruct x as [q |]; simpl in *; [| tauto].
    destruct (Qcompare 0 q) eqn:E; try reflexivity.
    apply Qlt_alt in E. exfalso. apply (Qlt_not_le _ _ E H).
  - destruct y as [q |]; simpl in *; [| tauto].
    destruct (Qcompare 0 q) eqn:E; try reflexivity.
    apply Qlt_alt in E. exfalso. apply (Qlt_not_le _ _ E H).
Qed.

Lemma C2_filter_excludes_witness :
  (celulas required_cols "cobertura_dias" linha_sem_cobertura = [Flt (Num 0)]
   /\ celulas required_cols "saldo_pedido" linha_sem_cobertura
      = [Flt (Num 70)]
   /\ (nao_positivo (Num 0) \/ nao_positivo (Num 70)))
  /\ processar
       {| columns := required_cols;
          rows := [[Str "A"; Flt (Num 10); Flt (Num 100); Str "m1";
                    Flt (Num 50)]]
                  ++ linha_sem_cobertura
                  :: [[Str "A"; Flt (Num 20); Flt (Num 300); Str "m2";
                       Flt (Num 150)]] |}
     = processar exemplo.
Proof.
  assert (H : nao_positivo (Num 0) \/ nao_positivo (Num 70)).
  { left. simpl. apply Qle_refl. }
  split; [repeat split; try reflexivity; exact H |].
  exact (proj1 (@C2_filter_excludes required_cols _ _ linha_sem_cobertura
                  (Num 0) (Num 70) eq_refl eq_refl H)).
Defined.



(** ** Bucketizer, Normalizer *)

Section Bucketizer.

Local Open Scope Q_scope.





End Bucketizer.

Section Totals.

Local Open Scope Q_scope.





End Totals.

(** ** One-row branches *)

Section SingleRow.

Local Open Scope Q_scope.




End SingleRow.

(** ** Columns beyond the required ones *)

Section ExtraColumns.

(** C8, as stated, fails.  [exemplo_com_filial] is the example with one
    more column, labelled "filial": the five required columns hold the
    same cells, yet the rename leaves two columns labelled "filial",
    [groupby] refuses the two-dimensional grouper and the run ends in the
    error message instead of the report. *)
Lemma C8_counterexample :
  Forall (fun col => coluna exemplo col = coluna exemplo_com_filial col)
         required_cols
  /\ processar exemplo
     = relatorio exemplo_cobertura exemplo_valores exemplo_percentuais
  /\ processar exemplo_com_filial
     = [st_subheader "📌 Cobertura Média por Filial";
        st_error_ocorreu ValueError].
Proof.
  split; [repeat constructor |]. split; reflexivity.
Qed.

(** A column labelled "valor_estoque" is not ignored either: the weights
    of [np.average] become two-dimensional, it raises, and the weighted
    means come out as 0. *)
Lemma coluna_valor_estoque_a_mais :
  Forall (fun col => coluna exemplo col = coluna exemplo_com_valor col)
         required_cols
  /\ processar exemplo_com_valor
     = relatorio [(KStr "A", [(ponderada, Num (0 # 100));
                              (simples, Num (1500 # 100));
                              (saldo_total, Num (20000 # 100))])]
                 exemplo_valores exemplo_percentuais.
Proof.
  split; [repeat constructor | reflexivity].
Qed.

Lemma rename_label_inv (c canon : string) :
  In canon nomes_internos -> rename_label c = canon ->
  c = canon
  \/ (c = "Vlr Estoque Tmk" /\ canon = "valor_estoque")%string
  \/ (c = "Cobertura Atual" /\ canon = "cobertura_dias")%string
  \/ (c = "Filial" /\ canon = "filial")%string
  \/ (c = "Saldo Pedido" /\ canon = "saldo_pedido")%string.
Proof.
  intros _. unfold rename_label.
  destruct (String.eqb c "Vlr Estoque Tmk") eqn:E1;
    [apply String.eqb_eq in E1; intros <-; tauto |].
  destruct (String.eqb c "Cobertura Atual") eqn:E2;
    [apply String.eqb_eq in E2; intros <-; tauto |].
  destruct (String.eqb c "Filial") eqn:E3;
    [apply String.eqb_eq in E3; intros <-; tauto |].
  destruct (String.eqb c "Saldo Pedido") eqn:E4;
    [apply String.eqb_eq in E4; intros <-; tauto |].
  tauto.
Qed.

(** Without a clash of labels, reading a renamed column is reading the
    required column it came from. *)
Lemma loc_rename (cols : list string) (row : list value) (orig canon : string) :
  In (orig, canon)
     [("Vlr Estoque Tmk", "valor_estoque"); ("Cobertura Atual", "cobertura_dias");
      ("Filial", "filial"); ("Saldo Pedido", "saldo_pedido")]%string ->
  ~ In canon cols ->
  loc (map rename_label cols) row canon = loc cols row orig.
Proof.
  intros Hpair Hno. revert row.
  induction cols as [| c cols IH]; intros row; [reflexivity |].
  destruct row as [| v row]; [reflexivity |]. cbn [map loc].
  assert (Hc : c <> canon) by (intros ->; apply Hno; now left).
  assert (Hno' : ~ In canon cols) by (intros H; apply Hno; now right).
  assert (E : String.eqb (rename_label c) canon = String.eqb c orig).
  { destruct (String.eqb c orig) eqn:Eo.
    - apply String.eqb_eq in Eo. subst c. apply String.eqb_eq.
      simpl in Hpair.
      repeat (destruct Hpair as [Hpair | Hpair];
              [injection Hpair as <- <-; reflexivity |]).
      contradiction.
    - apply String.eqb_neq in Eo. apply String.eqb_neq. intros Hr.
      assert (Hin : In canon nomes_internos).
      { simpl in Hpair. simpl.
        repeat (destruct Hpair as [Hpair | Hpair];
                [injection Hpair as <- <-; tauto |]).
        contradiction. }
      destruct (rename_label_inv c Hin Hr)
        as [H | [[H1 H2] | [[H1 H2] | [[H1 H2] | [H1 H2]]]]];
        [contradiction | subst c canon ..];
        simpl in Hpair;
        repeat (destruct Hpair as [Hpair | Hpair];
                [try discriminate Hpair;
                 injection Hpair as <-; apply Eo; reflexivity |]);
        contradiction. }
  rewrite E, (IH Hno'). reflexivity.
Qed.

Lemma map_registro_ext (cols1 cols2 : list string)
  (rows1 rows2 : list (list value)) :
  (forall canon, In canon nomes_internos ->
     map (fun row => loc cols1 row canon) rows1
     = map (fun row => loc cols2 row canon) rows2) ->
  map (registro cols1) rows1 = map (registro cols2) rows2.
Proof.
  intros H.
  assert (H1 := H "valor_estoque"%string ltac:(simpl; tauto)).
  assert (H2 := H "cobertura_dias"%string ltac:(simpl; tauto)).
  assert (H3 := H "filial"%string ltac:(simpl; tauto)).
  assert (H4 := H "saldo_pedido"%string ltac:(simpl; tauto)).
  clear H. revert rows2 H1 H2 H3 H4.
  induction rows1 as [| r1 rows1 IH]; intros [| r2 rows2]; simpl;
    try discriminate; [reflexivity |].
  intros H1 H2 H3 H4.
  injection H1 as E1 H1. injection H2 as E2 H2.
  injection H3 as E3 H3. injection H4 as E4 H4.
  unfold registro at 1 3. rewrite E1, E2, E3, E4.
  f_equal. apply IH; assumption.
Qed.

(** C8, amended.  Two tables that hold the same cells in the five
    required columns, neither with a column labelled "valor_estoque",
    "cobertura_dias", "filial" or "saldo_pedido", give the same run: the
    same messages and the same three tables. *)
Theorem C8_extra_columns_ignored (df1 df2 : DataFrame) :
  (forall col, In col required_cols ->
     (In col (columns df1) <-> In col (columns df2))
     /\ coluna df1 col = coluna df2 col) ->
  (forall col, In col nomes_internos ->
     ~ In col (columns df1) /\ ~ In col (columns df2)) ->
  processar df1 = processar df2.
Proof.
  intros Hreq Hno.
  assert (Hin : forall col, In col required_cols ->
                  is_in col (columns df1) = is_in col (columns df2)).
  { intros col Hc. destruct (Hreq col Hc) as [Hiff _].
    destruct (is_in col (columns df1)) eqn:E1;
      destruct (is_in col (columns df2)) eqn:E2; try reflexivity.
    - apply is_in_In, Hiff, is_in_In in E1. congruence.
    - apply is_in_In, Hiff, is_in_In in E2. congruence. }
  assert (Hall : forallb (fun col => is_in col (columns df1)) required_cols
                 = forallb (fun col => is_in col (columns df2)) required_cols).
  { clear Hreq. induction required_cols as [| c l IH]; simpl; [reflexivity |].
    rewrite (Hin c) by now left. f_equal. apply IH.
    intros col Hc. apply Hin. now right. }
  assert (Hmiss : missing_cols df1 = missing_cols df2).
  { unfold missing_cols. apply filter_ext_in. intros col Hc.
    rewrite (Hin col Hc). reflexivity. }
  assert (Hregs : registros (rename df1) = registros (rename df2)).
  { unfold registros, rename. cbn [columns rows].
    apply map_registro_ext. intros canon Hc.
    destruct (Hno canon Hc) as [Hn1 Hn2].
    assert (Hpair : exists orig,
              In (orig, canon)
                 [("Vlr Estoque Tmk", "valor_estoque");
                  ("Cobertura Atual", "cobertura_dias");
                  ("Filial", "filial"); ("Saldo Pedido", "saldo_pedido")]%string
              /\ In orig required_cols).
    { simpl in Hc.
      destruct Hc as [<- | [<- | [<- | [<- | []]]]];
        [exists "Vlr Estoque Tmk"%string | exists "Cobertura Atual"%string
         | exists "Filial"%string | exists "Saldo Pedido"%string];
        simpl; auto 10. }
    destruct Hpair as [orig [Hp Ho]].
    rewrite (map_ext _ _ (fun row => loc_rename _ row Hp Hn1)).
    rewrite (map_ext _ _ (fun row => loc_rename _ row Hp Hn2)).
    apply (proj2 (Hreq orig Ho)). }
  unfold processar. rewrite Hall, Hmiss, Hregs. reflexivity.
Qed.

Lemma C8_extra_columns_ignored_witness :
  ((forall col, In col required_cols ->
      (In col (columns exemplo) <-> In col (columns exemplo_com_observacao))
      /\ coluna exemplo col = coluna exemplo_com_observacao col)
   /\ (forall col, In col nomes_internos ->
         ~ In col (columns exemplo)
         /\ ~ In col (columns exemplo_com_observacao)))
  /\ processar exemplo = processar exemplo_com_observacao.
Proof.
  assert (H1 : forall col, In col required_cols ->
      (In col (columns exemplo) <-> In col (columns exemplo_com_observacao))
      /\ coluna exemplo col = coluna exemplo_com_observacao col).
  { intros col Hc. simpl in Hc.
    destruct Hc as [<- | [<- | [<- | [<- | [<- | []]]]]];
      (split; [simpl; tauto | reflexivity]). }
  assert (H2 : forall col, In col nomes_internos ->
         ~ In col (columns exemplo)
         /\ ~ In col (columns exemplo_com_observacao)).
  { intros col Hc. simpl in Hc.
    destruct Hc as [<- | [<- | [<- | [<- | []]]]];
      (split; simpl; intros H;
       repeat (destruct H as [H | H]; [discriminate H |]); exact H). }
  split; [split; assumption |].
  exact (C8_extra_columns_ignored exemplo exemplo_com_observacao H1 H2).
Defined.

End ExtraColumns.

(** * Further properties of the script *)

(** ** Filter: what it keeps, what stops it *)

Lemma somes_app {A} (l1 l2 : list (option A)) :
  somes (l1 ++ l2) = somes l1 ++ somes l2.
Proof.
  induction l1 as [| [a |] l1 IH]; simpl; [reflexivity | f_equal | ]; exact IH.
Qed.

Lemma In_somes_map {A B} (f : A -> option B) (l : list A) (b : B) :
  In b (somes (map f l)) <-> exists a, In a l /\ f a = Some b.
Proof.
  induction l as [| a l IH]; simpl.
  - split; [tauto | intros [a [[] _]]].
  - destruct (f a) as [b' |] eqn:E; simpl; rewrite IH; split.
    + intros [-> | [x [Hx Hf]]]; [exists a; auto | exists x; auto].
    + intros [x [[-> | Hx] Hf]]; [left; congruence | right; exists x; auto].
    + intros [x [Hx Hf]]. exists x. auto.
    + intros [x [[-> | Hx] Hf]]; [congruence | exists x; auto].
Qed.

Lemma manter_Some (r : Registro) (l : Linha) :
  manter r = Some l
  <-> exists c s,
        cobertura_dias r = [Flt (Num c)] /\ saldo_pedido r = [Flt (Num s)]
        /\ (0 < c)%Q /\ (0 < s)%Q
        /\ l = {| l_filial := filial r; l_cobertura_dias := c;
                  l_valor_estoque := valor_estoque r; l_saldo_pedido := s |}.
Proof.
  split.
  - intros H. pose proof (manter_positiva _ H) as [Hc Hs].
    unfold manter, mask_bit, linha in H.
    destruct (cobertura_dias r) as [| [[c |] | t] [| a' la]];
      try (simpl in H; destruct (saldo_pedido r) as [| ? [| ? ?]];
           discriminate H);
      destruct (saldo_pedido r) as [| [[s |] | t] [| b' lb]];
      simpl in H; try discriminate H;
      try (destruct (Qcompare 0 c); discriminate H).
    destruct (match Qcompare 0 c with Lt => true | _ => false end
              && match Qcompare 0 s with Lt => true | _ => false end);
      [| discriminate H].
    injection H as <-. exists c, s. simpl in Hc, Hs. auto 10.
  - intros [c [s [Hc [Hs [Hpc [Hps ->]]]]]].
    assert (Ec : Qcompare 0 c = Lt) by (apply -> Qlt_alt; exact Hpc).
    assert (Es : Qcompare 0 s = Lt) by (apply -> Qlt_alt; exact Hps).
    unfold manter, mask_bit, linha. rewrite Hc, Hs.
    cbn [map positivo Float.gt0]. rewrite Ec, Es. reflexivity.
Qed.

(** X1.  The filtered frame holds the rows whose coverage days and pending
    balance are both numbers above zero, those and no others, each with
    its branch and stock value cells as they were read. *)
Theorem filtrar_mantem (df : list Registro) (ls : list Linha) :
  filtrar df = Ok ls ->
  forall l, In l ls
    <-> exists r c s,
          In r df
          /\ cobertura_dias r = [Flt (Num c)]
          /\ saldo_pedido r = [Flt (Num s)]
          /\ (0 < c)%Q /\ (0 < s)%Q
          /\ l = {| l_filial := filial r; l_cobertura_dias := c;
                    l_valor_estoque := valor_estoque r;
                    l_saldo_pedido := s |}.
Proof.
  rewrite filtrar_eq.
  destruct (existsb (tem_texto cobertura_dias) df); [discriminate |].
  destruct (existsb (tem_texto saldo_pedido) df); [discriminate |].
  destruct (existsb (fun r => negb (unitario r)) df); [discriminate |].
  intros H l. injection H as <-. rewrite In_somes_map. split.
  - intros [r [Hr Hm]]. apply manter_Some in Hm.
    destruct Hm as [c [s Hm]]. exists r, c, s. tauto.
  - intros [r [c [s [Hr Hm]]]]. exists r. split; [exact Hr |].
    apply manter_Some. exists c, s. exact Hm.
Qed.

Lemma filtrar_mantem_witness :
  filtrar (registros (rename exemplo)) = Ok exemplo_filtrado
  /\ (In {| l_filial := [Str "A"]; l_cobertura_dias := 10;
            l_valor_estoque := [Flt (Num 100)]; l_saldo_pedido := 50 |}
         exemplo_filtrado
      <-> exists r c s,
            In r (registros (rename exemplo))
            /\ cobertura_dias r = [Flt (Num c)]
            /\ saldo_pedido r = [Flt (Num s)]
            /\ (0 < c)%Q /\ (0 < s)%Q
            /\ {| l_filial := [Str "A"]; l_cobertura_dias := 10;
                  l_valor_estoque := [Flt (Num 100)]; l_saldo_pedido := 50 |}
               = {| l_filial := filial r; l_cobertura_dias := c;
                    l_valor_estoque := valor_estoque r;
                    l_saldo_pedido := s |}).
Proof.
  split; [reflexivity |].
  exact (@filtrar_mantem (registros (rename exemplo)) exemplo_filtrado
           eq_refl _).
Defined.

(** X2.  The Filter works row by row and keeps the order: filtering two
    frames laid end to end succeeds exactly when filtering each succeeds,
    and gives the two results laid end to end. *)
Theorem filtrar_app (df1 df2 : list Registro) (ls : list Linha) :
  filtrar (df1 ++ df2) = Ok ls
  <-> exists ls1 ls2,
        filtrar df1 = Ok ls1 /\ filtrar df2 = Ok ls2 /\ ls = ls1 ++ ls2.
Proof.
  rewrite !filtrar_eq, !existsb_app, map_app, somes_app.
  destruct (existsb (tem_texto cobertura_dias) df1);
    [split; [discriminate | intros [? [? [H _]]]; discriminate H] |].
  destruct (existsb (tem_texto saldo_pedido) df1);
    [cbn [orb];
     destruct (existsb (tem_texto cobertura_dias) df2);
     (split; [discriminate | intros [? [? [H _]]]; discriminate H]) |].
  destruct (existsb (fun r => negb (unitario r)) df1);
    [cbn [orb];
     destruct (existsb (tem_texto cobertura_dias) df2);
     [| destruct (existsb (tem_texto saldo_pedido) df2)];
     (split; [discriminate | intros [? [? [H _]]]; discriminate H]) |].
  cbn [orb].
  destruct (existsb (tem_texto cobertura_dias) df2);
    [split; [discriminate | intros [? [? [_ [H _]]]]; discriminate H] |].
  destruct (existsb (tem_texto saldo_pedido) df2);
    [split; [discriminate | intros [? [? [_ [H _]]]]; discriminate H] |].
  destruct (existsb (fun r => negb (unitario r)) df2);
    [split; [discriminate | intros [? [? [_ [H _]]]]; discriminate H] |].
  split.
  - intros H. injection H as <-. eauto.
  - intros [ls1 [ls2 [H1 [H2 ->]]]]. injection H1 as <-. injection H2 as <-.
    reflexivity.
Qed.

(** X3.  A text in the coverage days or the pending balance of any row,
    in a table with all required columns, ends the run in the error
    message for a TypeError: no table is shown. *)
Theorem texto_interrompe (df : DataFrame) (row : list value) (s : string) :
  missing_cols df = [] ->
  In row (rows df) ->
  In (Str s) (celulas (columns df) "cobertura_dias" row)
  \/ In (Str s) (celulas (columns df) "saldo_pedido" row) ->
  processar df = [st_error_ocorreu TypeError].
Proof.
  intros Hm Hrow Hs. unfold processar.
  apply filter_negb_nil in Hm. rewrite Hm. cbn [negb].
  rewrite filtrar_eq.
  assert (Hr : In (registro (columns (rename df)) row) (registros (rename df))).
  { unfold registros. apply in_map. exact Hrow. }
  assert (Hstr : forall l, In (Str s) l -> existsb is_str l = true).
  { intros l Hl. apply existsb_exists. exists (Str s). auto. }
  destruct Hs as [Hs | Hs].
  - assert (E : existsb (tem_texto cobertura_dias) (registros (rename df))
                = true).
    { apply existsb_exists. eexists. split; [exact Hr |].
      unfold tem_texto. apply Hstr. exact Hs. }
    rewrite E. reflexivity.
  - assert (E : existsb (tem_texto saldo_pedido) (registros (rename df))
                = true).
    { apply existsb_exists. eexists. split; [exact Hr |].
      unfold tem_texto. apply Hstr. exact Hs. }
    rewrite E.
    destruct (existsb (tem_texto cobertura_dias) (registros (rename df)));
      reflexivity.
Qed.

Lemma texto_interrompe_witness :
  (missing_cols exemplo_com_texto = []
   /\ In [Str "A"; Flt (Num 20); Flt (Num 300); Str "m2"; Str "n/d"]
         (rows exemplo_com_texto)
   /\ In (Str "n/d")
         (celulas (columns exemplo_com_texto) "saldo_pedido"
            [Str "A"; Flt (Num 20); Flt (Num 300); Str "m2"; Str "n/d"]))
  /\ processar exemplo_com_texto = [st_error_ocorreu TypeError].
Proof.
  assert (H1 : In [Str "A"; Flt (Num 20); Flt (Num 300); Str "m2"; Str "n/d"]
                  (rows exemplo_com_texto)) by (right; left; reflexivity).
  assert (H2 : In (Str "n/d")
                  (celulas (columns exemplo_com_texto) "saldo_pedido"
                     [Str "A"; Flt (Num 20); Flt (Num 300); Str "m2";
                      Str "n/d"])) by (left; reflexivity).
  split; [repeat split; assumption |].
  exact (@texto_interrompe exemplo_com_texto _ "n/d" eq_refl H1
           (or_intror H2)).
Defined.

(** ** The run as a whole *)



Lemma loc_nao_vazio (cols : list string) (r : list value) (label : string) :
  In label cols -> length r = length cols -> loc cols r label <> [].
Proof.
  revert r. induction cols as [| c cols IH]; intros r Hin Hlen; [contradiction |].
  destruct r as [| v r]; [discriminate |]. cbn [loc].
  destruct (String.eqb c label) eqn:E; [discriminate |].
  apply String.eqb_neq in E. destruct Hin as [-> | Hin]; [congruence |].
  apply IH; [exact Hin |]. simpl in Hlen. congruence.
Qed.

(** X5.  Once the validation has passed, the renamed frame carries each of
    the four labels the script reads, and in a row as long as the header
    each of them finds at least one cell: no lookup of a column fails. *)
Theorem rotulos_presentes (df : DataFrame) :
  missing_cols df = [] ->
  forall canon, In canon nomes_internos ->
    In canon (columns (rename df))
    /\ forall row, length row = length (columns df) ->
                   celulas (columns df) canon row <> [].
Proof.
  intros Hm canon Hc. apply filter_negb_nil in Hm.
  rewrite forallb_forall in Hm.
  assert (Hin : In canon (map rename_label (columns df))).
  { simpl in Hc.
    destruct Hc as [<- | [<- | [<- | [<- | []]]]].
    - change "valor_estoque"%string with (rename_label "Vlr Estoque Tmk").
      apply in_map, is_in_In, Hm. simpl. tauto.
    - change "cobertura_dias"%string with (rename_label "Cobertura Atual").
      apply in_map, is_in_In, Hm. simpl. tauto.
    - change "filial"%string with (rename_label "Filial").
      apply in_map, is_in_In, Hm. simpl. tauto.
    - change "saldo_pedido"%string with (rename_label "Saldo Pedido").
      apply in_map, is_in_In, Hm. simpl. tauto. }
  split; [exact Hin |].
  intros row Hlen. unfold celulas. apply loc_nao_vazio; [exact Hin |].
  rewrite length_map. exact Hlen.
Qed.

Lemma rotulos_presentes_witness :
  missing_cols exemplo = []
  /\ In "filial"%string (columns (rename exemplo)).
Proof.
  split; [reflexivity |].
  exact (proj1 (@rotulos_presentes exemplo eq_refl "filial"%string
                  (or_intror (or_intror (or_introl eq_refl))))).
Defined.

Lemma fst_fold_passo (cols : list string) (r : linha_tabela) :
  fst (fold_left passo cols r) = fst r.
Proof.
  revert r. induction cols as [| c cols IH]; intros r; cbn [fold_left];
    [reflexivity |].
  rewrite IH. unfold passo. destruct (negb (String.eqb c "TOTAL"));
    reflexivity.
Qed.

(** X6.  In a run that reaches the end the three tables list the same
    branches, at least one, each once, in the same ascending order. *)
Theorem tabelas_mesmas_filiais (df : DataFrame) (c v p : tabela) :
  processar df = relatorio c v p ->
  map fst v = map fst c /\ map fst p = map fst c
  /\ StronglySorted key_lt (map fst c) /\ c <> [].
Proof.
  intros H. apply processar_relatorio in H.
  destruct H as [_ [ls [_ [Hc [Hv ->]]]]].
  destruct (cobertura_inv _ Hc) as [ks [Hks [Hne ->]]].
  destruct (resumo_valores_inv _ Hv) as [ks' [Hks' ->]].
  rewrite Hks in Hks'. injection Hks' as <-.
  rewrite resumo_percentuais_map.
  rewrite !map_map. cbn [fst total_da_linha].
  split; [reflexivity |]. split; [| split].
  - apply map_ext. intros k. unfold drop_cell. cbn [fst].
    apply fst_fold_passo.
  - rewrite map_id. eapply chaves_sorted, Hks.
  - destruct ks; [congruence | discriminate].
Qed.

Lemma tabelas_mesmas_filiais_witness :
  processar exemplo
  = relatorio exemplo_cobertura exemplo_valores exemplo_percentuais
  /\ map fst exemplo_percentuais = map fst exemplo_cobertura.
Proof.
  split; [reflexivity |].
  exact (proj1 (proj2 (@tabelas_mesmas_filiais exemplo exemplo_cobertura
                         exemplo_valores exemplo_percentuais eq_refl))).
Defined.

(** ** Rows and cells that do not count *)

Lemma chaves_sem_chave (X Y : list Linha) (l : Linha) :
  chave l = Ok None -> chaves (X ++ l :: Y) = chaves (X ++ Y).
Proof.
  intros Hl. unfold chaves. rewrite !mapM_app. cbn [mapM]. rewrite Hl.
  cbn [bind]. destruct (mapM chave X) as [x1 |]; cbn [bind]; [| reflexivity].
  destruct (mapM chave Y) as [x2 |]; cbn [bind]; [| reflexivity].
  rewrite !somes_app. reflexivity.
Qed.

Lemma tem_chave_sem_chave (k : key) (l : Linha) :
  chave l = Ok None -> tem_chave k l = false.
Proof. unfold tem_chave. intros ->. reflexivity. Qed.

Lemma filter_meio {A} (f : A -> bool) (X Y : list A) (a : A) :
  f a = false -> filter f (X ++ a :: Y) = filter f (X ++ Y).
Proof.
  intros H. rewrite !filter_app. cbn [filter]. rewrite H. reflexivity.
Qed.

Lemma cobertura_sem_chave (X Y : list Linha) (l : Linha) :
  chave l = Ok None -> cobertura (X ++ l :: Y) = cobertura (X ++ Y).
Proof.
  intros Hl. unfold cobertura. rewrite !groupby_chaves.
  rewrite (@chaves_sem_chave X Y l Hl).
  destruct (chaves (X ++ Y)) as [ks |]; cbn [bind]; [| reflexivity].
  assert (E : map (fun k => (k, grupo_de k (X ++ l :: Y))) ks
              = map (fun k => (k, grupo_de k (X ++ Y))) ks).
  { apply map_ext. intros k. unfold grupo_de.
    rewrite (filter_meio _ X Y l (@tem_chave_sem_chave k l Hl)). reflexivity. }
  rewrite E. reflexivity.
Qed.

Lemma resumo_valores_sem_chave (X Y : list Linha) (l : Linha) :
  chave l = Ok None ->
  resumo_valores (X ++ l :: Y) = resumo_valores (X ++ Y).
Proof.
  intros Hl. unfold resumo_valores, soma_por_faixa.
  rewrite (@chaves_sem_chave X Y l Hl).
  destruct (chaves (X ++ Y)) as [ks |]; cbn [bind]; [| reflexivity].
  do 2 f_equal. apply map_ext. intros k. f_equal.
  unfold faixas_da_filial. apply map_ext. intros il. f_equal. f_equal.
  unfold soma_saldo. rewrite filter_meio; [reflexivity |].
  rewrite (@tem_chave_sem_chave k l Hl). reflexivity.
Qed.

(** X7.  A row with a blank branch id, its coverage days and pending
    balance being numbers or blanks, changes nothing: with such a row or
    without it the run shows the same messages and the same tables
    ([groupby] leaves out the rows without a key). *)
Theorem filial_em_branco (cols : list string)
  (before after : list (list value)) (row : list value) (x y : float) :
  celulas cols "filial" row = [Flt NaN] ->
  celulas cols "cobertura_dias" row = [Flt x] ->
  celulas cols "saldo_pedido" row = [Flt y] ->
  processar {| columns := cols; rows := before ++ row :: after |}
  = processar {| columns := cols; rows := before ++ after |}.
Proof.
  intros Hf Hx Hy. unfold processar, registros, rename. cbn [columns rows].
  destruct (negb (forallb (fun col => is_in col cols) required_cols));
    [reflexivity |].
  rewrite !filtrar_eq, !map_app. cbn [map].
  set (r := registro (map rename_label cols) row).
  set (B := map (registro (map rename_label cols)) before).
  set (A := map (registro (map rename_label cols)) after).
  assert (Hrx : cobertura_dias r = [Flt x]) by exact Hx.
  assert (Hry : saldo_pedido r = [Flt y]) by exact Hy.
  assert (Hrf : filial r = [Flt NaN]) by exact Hf.
  rewrite !existsb_app. cbn [existsb].
  unfold tem_texto at 2 5. unfold unitario at 2. rewrite Hrx, Hry.
  cbn [existsb is_str orb negb].
  destruct (existsb (tem_texto cobertura_dias) B
            || existsb (tem_texto cobertura_dias) A); [reflexivity |].
  destruct (existsb (tem_texto saldo_pedido) B
            || existsb (tem_texto saldo_pedido) A); [reflexivity |].
  destruct (existsb (fun r0 => negb (unitario r0)) B
            || existsb (fun r0 => negb (unitario r0)) A); [reflexivity |].
  rewrite ?map_app, !somes_app. cbn [map somes].
  destruct (manter r) as [l |] eqn:El; [| reflexivity].
  assert (Hl : chave l = Ok None).
  { unfold manter in El. destruct (mask_bit r); [| discriminate].
    unfold linha in El. rewrite Hrx, Hry in El.
    destruct x as [c |]; [| discriminate]. destruct y as [s |]; [| discriminate].
    injection El as <-. unfold chave, l_filial.
    unfold celulas in Hf. rewrite Hf.
    reflexivity. }
  rewrite (@cobertura_sem_chave _ _ l Hl), (@resumo_valores_sem_chave _ _ l Hl).
  reflexivity.
Qed.

Lemma filial_em_branco_witness :
  (celulas required_cols "filial" linha_sem_filial = [Flt NaN]
   /\ celulas required_cols "cobertura_dias" linha_sem_filial
      = [Flt (Num 40)]
   /\ celulas required_cols "saldo_pedido" linha_sem_filial = [Flt (Num 99)])
  /\ processar
       {| columns := required_cols;
          rows := [[Str "A"; Flt (Num 10); Flt (Num 100); Str "m1";
                    Flt (Num 50)]]
                  ++ linha_sem_filial
                  :: [[Str "A"; Flt (Num 20); Flt (Num 300); Str "m2";
                       Flt (Num 150)]] |}
     = processar exemplo.
Proof.
  split; [repeat split; reflexivity |].
  exact (@filial_em_branco required_cols _ _ linha_sem_filial
           (Num 40) (Num 99) eq_refl eq_refl eq_refl).
Defined.

Lemma loc_troca_mercadoria (cols : list string) (r r' : list value)
  (canon : string) :
  In canon nomes_internos ->
  loc (map rename_label cols) (troca_mercadoria cols r r') canon
  = loc (map rename_label cols) r canon.
Proof.
  intros Hc. revert r r'.
  induction cols as [| c cols IH]; intros r r'; [reflexivity |].
  destruct r as [| v r]; [reflexivity |].
  destruct r' as [| v' r']; [reflexivity |].
  cbn [troca_mercadoria map loc]. rewrite IH.
  destruct (String.eqb c "Mercadoria") eqn:E; [| reflexivity].
  apply String.eqb_eq in E. subst c.
  assert (En : String.eqb (rename_label "Mercadoria") canon = false).
  { simpl in Hc. destruct Hc as [<- | [<- | [<- | [<- | []]]]]; reflexivity. }
  rewrite En. reflexivity.
Qed.

(** X8.  The column "Mercadoria" must be there but is never read: putting
    any other cells under it leaves the run as it was. *)
Theorem mercadoria_nao_lida (cols : list string) (linhas : list (list value))
  (g : list value -> list value) :
  processar {| columns := cols;
               rows := map (fun r => troca_mercadoria cols r (g r)) linhas |}
  = processar {| columns := cols; rows := linhas |}.
Proof.
  unfold processar, registros, rename. cbn [columns rows].
  rewrite map_map.
  assert (E : map (fun r => registro (map rename_label cols)
                              (troca_mercadoria cols r (g r))) linhas
              = map (registro (map rename_label cols)) linhas).
  { apply map_ext. intros r. unfold registro.
    rewrite !loc_troca_mercadoria by (simpl; tauto). reflexivity. }
  rewrite E. reflexivity.
Qed.

(** ** Stock values that are not numbers *)

Lemma fold_add_NaN (l : list float) : fold_left Float.add l NaN = NaN.
Proof. induction l as [| x l IH]; simpl; [reflexivity | exact IH]. Qed.

Lemma sum_com_NaN (l : list float) (a : float) :
  In NaN l -> fold_left Float.add l a = NaN.
Proof.
  revert a. induction l as [| x l IH]; intros a; simpl; [tauto |].
  intros [-> | Hin].
  - destruct a; simpl; apply fold_add_NaN.
  - apply IH, Hin.
Qed.

Lemma pesos_float_mapM (xs : list float) :
  mapM (fun v => match v with [Flt x] => Ok x | _ => Raise TypeError end)
       (map (fun x => [Flt x]) xs) = Ok xs.
Proof.
  induction xs as [| x xs IH]; simpl; [reflexivity |]. rewrite IH. reflexivity.
Qed.

Lemma mapM_raise {A B} (f : A -> result B) (e : exn) (l : list A) :
  (forall a e', f a = Raise e' -> e' = e) ->
  (exists a, In a l /\ exists e', f a = Raise e') ->
  mapM f l = Raise e.
Proof.
  intros Hf. induction l as [| a l IH]; intros [x [Hin [e' Hx]]];
    [contradiction |].
  simpl. destruct (f a) as [b |] eqn:Ea; simpl.
  - destruct Hin as [-> | Hin]; [congruence |].
    rewrite IH; [reflexivity |]. exists x. eauto.
  - rewrite (Hf _ _ Ea). reflexivity.
Qed.

Lemma celula_ponderada (k : key) (grupo : list Linha) :
  celula (k, round_cells 2 (agregados grupo)) ponderada
  = Some (Float.round (calcular_media_ponderada grupo) 2).
Proof. reflexivity. Qed.

(** X9.  When the stock values of a branch are numbers or blanks and at
    least one is blank, the weighted mean of the branch is NaN: the
    fallback to 0 does not apply, because nothing is raised. *)
Theorem peso_em_branco (df : list Linha) (c : tabela) (r : linha_tabela)
  (xs : list float) :
  cobertura df = Ok c -> In r c ->
  map l_valor_estoque (grupo_de (fst r) df) = map (fun x => [Flt x]) xs ->
  In NaN xs ->
  celula r ponderada = Some NaN.
Proof.
  intros Hc Hr Hw Hnan.
  destruct (cobertura_inv _ Hc) as [ks [_ [_ ->]]].
  apply in_map_iff in Hr. destruct Hr as [k [<- _]]. cbn [fst] in Hw.
  rewrite celula_ponderada. f_equal.
  unfold calcular_media_ponderada, np_average.
  assert (Es : Float.sum xs = NaN)
    by (unfold Float.sum; apply sum_com_NaN; exact Hnan).
  rewrite Hw, pesos_float_mapM. cbn [bind]. cbv zeta. rewrite Es.
  cbn [Float.eq0]. clear Es.
  destruct (Float.sum (map _ _)); reflexivity.
Qed.

Lemma peso_em_branco_witness :
  (cobertura [linha_peso_em_branco]
   = Ok [(KStr "A", [(ponderada, NaN); (simples, Num (500 # 100));
                     (saldo_total, Num (100 # 100))])]
   /\ In (KStr "A", [(ponderada, NaN); (simples, Num (500 # 100));
                     (saldo_total, Num (100 # 100))])
         [(KStr "A", [(ponderada, NaN); (simples, Num (500 # 100));
                      (saldo_total, Num (100 # 100))])]
   /\ map l_valor_estoque (grupo_de (KStr "A") [linha_peso_em_branco])
      = map (fun x => [Flt x]) [NaN]
   /\ In NaN [NaN])
  /\ celula (KStr "A", [(ponderada, NaN); (simples, Num (500 # 100));
                        (saldo_total, Num (100 # 100))]) ponderada
     = Some NaN.
Proof.
  assert (H1 : In (KStr "A", [(ponderada, NaN); (simples, Num (500 # 100));
                              (saldo_total, Num (100 # 100))])
                  [(KStr "A", [(ponderada, NaN); (simples, Num (500 # 100));
                               (saldo_total, Num (100 # 100))])])
    by (left; reflexivity).
  assert (H2 : In NaN [NaN]) by (left; reflexivity).
  split; [repeat split; try reflexivity; assumption |].
  exact (@peso_em_branco [linha_peso_em_branco] _ _ [NaN] eq_refl H1
           eq_refl H2).
Defined.

(** X10.  When a stock value of a branch is a text, or the label
    "valor_estoque" is duplicated, [np.average] raises a TypeError and the
    weighted mean of the branch is reported as 0. *)
Theorem peso_nao_numerico (df : list Linha) (c : tabela) (r : linha_tabela)
  (l : Linha) :
  cobertura df = Ok c -> In r c ->
  In l (grupo_de (fst r) df) ->
  (forall x, l_valor_estoque l <> [Flt x]) ->
  np_average (col_cobertura_dias (grupo_de (fst r) df))
             (map l_valor_estoque (grupo_de (fst r) df)) = Raise TypeError
  /\ celula r ponderada = Some (Float.round (Num 0) 2).
Proof.
  intros Hc Hr Hl Hbad.
  destruct (cobertura_inv _ Hc) as [ks [_ [_ ->]]].
  apply in_map_iff in Hr. destruct Hr as [k [<- _]]. cbn [fst] in *.
  assert (E : np_average (col_cobertura_dias (grupo_de k df))
                (map l_valor_estoque (grupo_de k df)) = Raise TypeError).
  { unfold np_average. rewrite (@mapM_raise _ _ _ TypeError); [reflexivity | |].
    - intros [| [x | s] [| v' vs]] e' H; simpl in H; congruence.
    - exists (l_valor_estoque l). split; [apply in_map, Hl |].
      exists TypeError.
      destruct (l_valor_estoque l) as [| [x | s] [| v' vs]] eqn:E;
        try reflexivity.
      exfalso. apply (Hbad x). reflexivity. }
  split; [exact E |].
  rewrite celula_ponderada. unfold calcular_media_ponderada. rewrite E.
  reflexivity.
Qed.

Lemma peso_nao_numerico_witness :
  (cobertura [linha_peso_texto]
   = Ok [(KStr "A", [(ponderada, Num (0 # 100)); (simples, Num (500 # 100));
                     (saldo_total, Num (100 # 100))])]
   /\ In (KStr "A", [(ponderada, Num (0 # 100)); (simples, Num (500 # 100));
                     (saldo_total, Num (100 # 100))])
         [(KStr "A", [(ponderada, Num (0 # 100)); (simples, Num (500 # 100));
                      (saldo_total, Num (100 # 100))])]
   /\ In linha_peso_texto (grupo_de (KStr "A") [linha_peso_texto])
   /\ forall x, l_valor_estoque linha_peso_texto <> [Flt x])
  /\ celula (KStr "A", [(ponderada, Num (0 # 100)); (simples, Num (500 # 100));
                        (saldo_total, Num (100 # 100))]) ponderada
     = Some (Float.round (Num 0) 2).
Proof.
  assert (H1 : In (KStr "A", [(ponderada, Num (0 # 100));
                              (simples, Num (500 # 100));
                              (saldo_total, Num (100 # 100))])
                  [(KStr "A", [(ponderada, Num (0 # 100));
                               (simples, Num (500 # 100));
                               (saldo_total, Num (100 # 100))])])
    by (left; reflexivity).
  assert (H2 : In linha_peso_texto (grupo_de (KStr "A") [linha_peso_texto]))
    by (left; reflexivity).
  assert (H3 : forall x, l_valor_estoque linha_peso_texto <> [Flt x])
    by (intros x H; discriminate H).
  split; [repeat split; try reflexivity; assumption |].
  exact (proj2 (@peso_nao_numerico [linha_peso_texto] _ _ linha_peso_texto
                  eq_refl H1 H2 H3)).
Defined.

(** ** The ranges of [pd.cut] *)

Section CutEdges.

Local Open Scope Q_scope.

Ltac bools_to_props :=
  repeat match goal with
         | H : _ && _ = true |- _ => apply andb_true_iff in H; destruct H
         | H : negb _ = true |- _ => apply negb_true_iff in H
         | H : Qle_bool _ _ = true |- _ => apply Qle_bool_iff in H
         | H : Qle_bool _ _ = false |- _ => apply Qle_bool_false in H
         | H : false = true |- _ => discriminate H
         end.

(** X11.  [pd.cut] gives no range to a number below zero nor to a blank,
    and the ranges follow the order of the numbers: of two numbers with a
    range, the larger one is not in an earlier range. *)
Theorem cut_bordas :
  (forall q, q < 0 -> cut (Num q) bins = None)
  /\ cut NaN bins = None
  /\ (forall p q i j, p <= q ->
        cut (Num p) bins = Some i -> cut (Num q) bins = Some j ->
        (i <= j)%nat).
Proof.
  split; [| split; [reflexivity |]].
  - intros q Hq. destruct (cut (Num q) bins) as [i |] eqn:E; [| reflexivity].
    apply cut_intervalo in E.
    destruct i as [| [| [| [| [| i]]]]]; unfold no_intervalo in E;
      bools_to_props; try discriminate E; exfalso; lra.
  - intros p q i j Hpq Hi Hj. apply cut_intervalo in Hi, Hj.
    destruct i as [| [| [| [| [| i]]]]]; unfold no_intervalo in Hi;
      try discriminate Hi;
      destruct j as [| [| [| [| [| j]]]]]; unfold no_intervalo in Hj;
      try discriminate Hj;
      bools_to_props; try lia; exfalso; lra.
Qed.

End CutEdges.

(** ** Bounds *)

Section Bounds.

Local Open Scope Q_scope.











End Bounds.

(** ** Nothing lost, nothing counted twice *)

Section Conservation.

Local Open Scope Q_scope.










End Conservation.

(** ** What the stock value reaches *)

Lemma filter_map_mesmo {A} (P : A -> bool) (f : A -> A) (l : list A) :
  (forall a, P (f a) = P a) -> filter P (map f l) = map f (filter P l).
Proof.
  intros H. induction l as [| a l IH]; [reflexivity |].
  cbn [map filter]. rewrite H. destruct (P a); cbn [map]; rewrite IH;
    reflexivity.
Qed.

Lemma mapM_ext {A B} (f g : A -> result B) (l : list A) :
  (forall a, f a = g a) -> mapM f l = mapM g l.
Proof.
  intros H. induction l as [| a l IH]; [reflexivity |].
  cbn [mapM]. rewrite H, IH. reflexivity.
Qed.

Lemma chaves_com_peso (g : Linha -> list value) (df : list Linha) :
  chaves (map (com_peso g) df) = chaves df.
Proof.
  unfold chaves. rewrite mapM_map.
  rewrite (mapM_ext (fun a => chave (com_peso g a)) chave);
    [reflexivity | intros a; reflexivity].
Qed.

(** X15.  The stock value reaches the weighted mean and nothing else:
    with other cells under "valor_estoque" the table of sums (and with it
    the percentages) is the same, and the table of means has the same
    branches with the same simple mean and the same total. *)
Theorem peso_so_na_ponderada (g : Linha -> list value) (df : list Linha) :
  resumo_valores (map (com_peso g) df) = resumo_valores df
  /\ forall c, cobertura df = Ok c ->
       exists c', cobertura (map (com_peso g) df) = Ok c'
                  /\ Forall2 (fun r r' =>
                                fst r = fst r'
                                /\ celula r simples = celula r' simples
                                /\ celula r saldo_total
                                   = celula r' saldo_total) c c'.
Proof.
  assert (Hg : forall k, grupo_de k (map (com_peso g) df)
                         = map (com_peso g) (grupo_de k df)).
  { intros k. unfold grupo_de. apply filter_map_mesmo. reflexivity. }
  split.
  - unfold resumo_valores, soma_por_faixa. rewrite chaves_com_peso.
    destruct (chaves df) as [ks |]; cbn [bind]; [| reflexivity].
    do 2 f_equal. apply map_ext. intros k. f_equal.
    unfold faixas_da_filial. apply map_ext. intros il. do 2 f_equal.
    unfold soma_saldo. rewrite filter_map_mesmo by reflexivity.
    unfold col_saldo_pedido. rewrite map_map. reflexivity.
  - intros c Hc. destruct (cobertura_inv _ Hc) as [ks [Hks [Hne ->]]].
    eexists. split.
    + unfold cobertura. rewrite groupby_chaves, chaves_com_peso, Hks.
      cbn [bind]. destruct ks as [| k ks]; [congruence |]. reflexivity.
    + rewrite map_map. apply Forall2_map_same. intros k _. cbn [fst snd].
      split; [reflexivity |]. fold (grupo_de k (map (com_peso g) df)).
      rewrite Hg. unfold celula.
      cbn [snd find fst round_cells agregados map].
      unfold col_cobertura_dias, col_saldo_pedido. rewrite !map_map.
      split; reflexivity.
Qed.
